(** * The canned-response chat engine of the financial advisor page

    A shallow embedding of [src/components/FinancialChat.tsx] (the message
    list, [handleSendMessage], [simulateAIResponse] and its timer callback)
    and of the recommendations section of [FinancialChart]; further on,
    of the key handler and the send button of the chat, the cell colours
    of the pie chart, and the page [FinancialAdvisor] with the quick
    actions of [ProfileSidebar].

    Strings.  A JavaScript string is a sequence of UTF-16 code units; a Rocq
    [string] is a sequence of 8-bit characters.  A Rocq string stands here
    for the JavaScript string with the same code units, all below 256 (the
    Basic Latin and Latin-1 Supplement blocks).  On that range the built-ins
    used by the component are modelled exactly as ECMAScript defines them;
    utterances with code units from 256 on are outside the embedding. *)

From Stdlib Require Import ZArith List Bool Ascii String Lia.
From Stdlib Require Import Numbers.DecimalString.
From Stdlib Require Import Numbers.DecimalZ Numbers.DecimalPos Sorting.Sorted.
Import ListNotations.

Open Scope string_scope.
Open Scope Z_scope.

(** ** The ECMAScript built-ins the component calls *)

Module JS.

(** One code unit of [String.prototype.toLowerCase]: [A]-[Z] (65-90) and
    the Latin-1 capitals U+00C0-U+00DE, without the multiplication sign
    U+00D7, move up by 32; every other code unit below 256 is its own
    lower case. *)
Definition lowerChar (c : ascii) : ascii :=
  let n := N_of_ascii c in
  if ((65 <=? n) && (n <=? 90))%N then ascii_of_N (n + 32)
  else if ((192 <=? n) && (n <=? 222) && negb (n =? 215))%N
       then ascii_of_N (n + 32)
       else c.

(** [s.toLowerCase()] *)
Fixpoint toLowerCase (s : string) : string :=
  match s with
  | EmptyString => EmptyString
  | String c s' => String (lowerChar c) (toLowerCase s')
  end.

(** [s.includes(sub)]: [sub] occurs in [s] at some position. *)
Fixpoint includes (s sub : string) : bool :=
  String.prefix sub s
  || match s with
     | EmptyString => false
     | String _ s' => includes s' sub
     end.

(** The code units [String.prototype.trim] strips (WhiteSpace and
    LineTerminator) that lie below 256: TAB, LF, VT, FF, CR, SP, NBSP. *)
Definition isWhiteSpace (c : ascii) : bool :=
  let n := N_of_ascii c in
  (((9 <=? n) && (n <=? 13)) || (n =? 32) || (n =? 160))%N.

Fixpoint trimStart (s : string) : string :=
  match s with
  | EmptyString => EmptyString
  | String c s' => if isWhiteSpace c then trimStart s' else s
  end.

Fixpoint trimEnd (s : string) : string :=
  match s with
  | EmptyString => EmptyString
  | String c s' =>
      match trimEnd s' with
      | EmptyString => if isWhiteSpace c then EmptyString
                       else String c EmptyString
      | r => String c r
      end
  end.

(** [s.trim()] *)
Definition trim (s : string) : string := trimEnd (trimStart s).

(** [!s] on a string: only the empty string is falsy. *)
Definition not_string (s : string) : bool :=
  match s with
  | EmptyString => true
  | String _ _ => false
  end.

(** [n.toString()] on an integral number below 10^21 in magnitude, as
    the readings of [Date.now()] are: its decimal digits. *)
Definition toString (n : Z) : string := NilZero.string_of_int (Z.to_int n).

End JS.

(** ** Chart payloads and [FinancialChart]'s recommendations section *)

(** A point of the line chart: [{ month, value }]. *)
Module Line.
Record point := { month : string; value : Z }.
End Line.

(** A slice of the pie chart: [{ name, value, recommended }]; the chart
  reads [recommended] as an optional field. *)
Module Pie.
Record slice := { name : string; value : Z; recommended : option Z }.
End Pie.

(** [{ type: "line" | "pie", data }] *)
Inductive ChartData :=
| line (data : list Line.point)
| pie (data : list Pie.slice).

Module FinancialChart.

(** Truthiness of [item.recommended]: a number other than 0. *)
Definition truthy (r : option Z) : bool :=
  match r with
  | Some n => negb (n =? 0)
  | None => false
  end.

(** One line of the section: the label [name:] and the text
    [+change%] or [change%]; [positive] selects the colour class. *)
Record Adjustment :=
  { label : string; change : Z; positive : bool; text : string }.

(** The body of [data.data.map((item, index) => ...)]: a line when
    [item.recommended && item.value !== item.recommended], else [null]. *)
Definition adjustment (item : Pie.slice) : option Adjustment :=
  match Pie.recommended item with
  | Some r =>
      if truthy (Some r) && negb (Pie.value item =? r) then
        let change := r - Pie.value item in
        Some {| label := Pie.name item ++ ":";
                change := change;
                positive := change >? 0;
                text := (if change >? 0 then "+" else "")
                          ++ JS.toString change ++ "%" |}
      else None
  | None => None
  end.

(** The section as a whole, rendered only for a pie chart in which
    [data.data.some(item => item.recommended)]. *)
Definition recommendations (d : ChartData) : option (list (option Adjustment)) :=
  match d with
  | line _ => None
  | pie items =>
      if existsb (fun item => truthy (Pie.recommended item)) items
      then Some (map adjustment items)
      else None
  end.

(** The differences the section shows, in order. *)
Definition shownChanges (d : ChartData) : list Z :=
  match recommendations d with
  | Some rows =>
      flat_map (fun row => match row with
                           | Some a => [change a]
                           | None => []
                           end) rows
  | None => []
  end.

(** [COLORS] and [PIE_COLORS]. *)
Definition primary : string := "hsl(208 100% 47%)".
Definition secondary : string := "hsl(142 70% 45%)".
Definition accent : string := "hsl(120 60% 50%)".
Definition muted : string := "hsl(210 15% 65%)".
Definition warning : string := "hsl(38 92% 50%)".

Definition PIE_COLORS : list string := [primary; secondary; accent; muted; warning].

(** [PIE_COLORS[index % PIE_COLORS.length]], the fill of the cell at
    [index]; reading an array out of its range gives [undefined], here
    [None]. *)
Definition cellFill (index : nat) : option string :=
  nth_error PIE_COLORS (index mod List.length PIE_COLORS).

(** [data.data.map((entry, index) => <Cell fill=... />)] *)
Definition cells (items : list Pie.slice) : list (option string) :=
  map cellFill (seq 0 (List.length items)).

End FinancialChart.

(** ** [FinancialChat]: the response classifier *)

Module Reply.
(** The three locals of the timer callback: [response], [hasChart],
    [chartData] ([null] is [None]). *)
Record t := { response : string; hasChart : bool; chartData : option ChartData }.
End Reply.

Module FinancialChat.

Definition greeting : string :=
  "Hello! I'm your AI superannuation advisor. I can help you optimize your retirement investments, explain financial terms, and provide personalized recommendations based on your goals. What would you like to know today?".

Definition performanceResponse : string :=
  "Based on your current portfolio allocation, here's your performance over the last 12 months. Your balanced approach with 70% growth assets and 30% defensive assets has yielded a solid 8.2% return. Consider increasing your international equity exposure for better diversification.".

Definition allocationResponse : string :=
  "Your current asset allocation shows room for improvement. Here's your breakdown and my recommended adjustments for better long-term growth while managing risk appropriately for your age profile.".

Definition retirementResponse : string :=
  "Based on your retirement goal of $1.2M by age 65, you're currently on track but could accelerate your progress. With your current contribution rate and expected returns, you'll reach approximately $1.05M. I recommend increasing your contributions by $200/month to meet your target.".

Definition fallbackResponse : string :=
  "That's a great question! I can help you with portfolio optimization, retirement planning, investment explanations, and risk assessment. Feel free to ask about your superannuation performance, asset allocation, or any financial terms you'd like me to explain.".

Definition performanceData : list Line.point :=
  [ {| Line.month := "Jan"; Line.value := 95000 |};
    {| Line.month := "Feb"; Line.value := 97200 |};
    {| Line.month := "Mar"; Line.value := 96800 |};
    {| Line.month := "Apr"; Line.value := 99100 |};
    {| Line.month := "May"; Line.value := 101500 |};
    {| Line.month := "Jun"; Line.value := 103200 |};
    {| Line.month := "Jul"; Line.value := 105800 |};
    {| Line.month := "Aug"; Line.value := 104200 |};
    {| Line.month := "Sep"; Line.value := 107600 |};
    {| Line.month := "Oct"; Line.value := 109200 |};
    {| Line.month := "Nov"; Line.value := 112400 |};
    {| Line.month := "Dec"; Line.value := 115800 |} ].

Definition allocationData : list Pie.slice :=
  [ {| Pie.name := "Australian Shares"; Pie.value := 35; Pie.recommended := Some 40 |};
    {| Pie.name := "International Shares"; Pie.value := 25; Pie.recommended := Some 30 |};
    {| Pie.name := "Property"; Pie.value := 15; Pie.recommended := Some 10 |};
    {| Pie.name := "Bonds"; Pie.value := 20; Pie.recommended := Some 15 |};
    {| Pie.name := "Cash"; Pie.value := 5; Pie.recommended := Some 5 |} ].

(** The keyword chain of the timer callback (lines 45-87): the values of
    [response], [hasChart] and [chartData] when the chain is left. *)
Definition classify (userMessage : string) : Reply.t :=
  if JS.includes (JS.toLowerCase userMessage) "portfolio"
     || JS.includes (JS.toLowerCase userMessage) "performance"
  then {| Reply.response := performanceResponse;
          Reply.hasChart := true;
          Reply.chartData := Some (line performanceData) |}
  else if JS.includes (JS.toLowerCase userMessage) "allocation"
          || JS.includes (JS.toLowerCase userMessage) "diversif"
  then {| Reply.response := allocationResponse;
          Reply.hasChart := true;
          Reply.chartData := Some (pie allocationData) |}
  else if JS.includes (JS.toLowerCase userMessage) "retirement"
          || JS.includes (JS.toLowerCase userMessage) "goal"
  then {| Reply.response := retirementResponse;
          Reply.hasChart := false;
          Reply.chartData := None |}
  else {| Reply.response := fallbackResponse;
          Reply.hasChart := false;
          Reply.chartData := None |}.

(** ** [FinancialChat]: the conversation and its handlers *)

(** [interface Message]; [timestamp] is the date in milliseconds, the
    optional [hasChart] is [None] when the field is absent, and
    [chartData] is [None] when it is absent or [null]. *)
Record Message :=
  { id : string;
    content : string;
    isUser : bool;
    timestamp : Z;
    hasChart : option bool;
    chartData : option ChartData }.

(** [initialMessages], built when the module is loaded, at clock
    reading [loadTime]. *)
Definition initialMessages (loadTime : Z) : list Message :=
  [ {| id := "1";
       content := greeting;
       isUser := false;
       timestamp := loadTime - 5000;
       hasChart := None;
       chartData := None |} ].

(** A callback registered with [setTimeout] and not yet run: the
    [userMessage] its closure holds and the time it is due. *)
Record Timer := { userMessage : string; due : Z }.

(** The component's three [useState] cells and the timers it has
    pending, oldest first. *)
Record State :=
  { messages : list Message;
    inputValue : string;
    isTyping : bool;
    timers : list Timer }.

Definition setMessages (f : list Message -> list Message) (st : State) : State :=
  {| messages := f (messages st);
     inputValue := inputValue st;
     isTyping := isTyping st;
     timers := timers st |}.

Definition setInputValue (v : string) (st : State) : State :=
  {| messages := messages st;
     inputValue := v;
     isTyping := isTyping st;
     timers := timers st |}.

Definition setIsTyping (b : bool) (st : State) : State :=
  {| messages := messages st;
     inputValue := inputValue st;
     isTyping := b;
     timers := timers st |}.

(** [setTimeout(callback, delay)] called at clock reading [now]. *)
Definition setTimeout (callback : string) (delay now : Z) (st : State) : State :=
  {| messages := messages st;
     inputValue := inputValue st;
     isTyping := isTyping st;
     timers := (timers st ++ [ {| userMessage := callback; due := now + delay |} ])%list |}.

(** The function handed to [setTimeout] by [simulateAIResponse], run at
    clock reading [now]: it builds [aiMessage] from the keyword chain,
    appends it and clears [isTyping]. *)
Definition timeoutCallback (userMessage : string) (now : Z) (st : State) : State :=
  let r := classify userMessage in
  let aiMessage :=
    {| id := JS.toString now;
       content := Reply.response r;
       isUser := false;
       timestamp := now;
       hasChart := Some (Reply.hasChart r);
       chartData := Reply.chartData r |} in
  setIsTyping false (setMessages (fun prev => (prev ++ [aiMessage])%list) st).

Definition simulateAIResponse (userMessage : string) (now : Z) (st : State) : State :=
  setTimeout userMessage 1500 now (setIsTyping true st).

(** [handleSendMessage], run at clock reading [now] (one reading serves
    [Date.now()] and [new Date()] of the same run); [inputValue] is the
    value the handler's closure holds, that of the state it runs in. *)
Definition handleSendMessage (now : Z) (st : State) : State :=
  if JS.not_string (JS.trim (inputValue st)) then st
  else
    let userMessage :=
      {| id := JS.toString now;
         content := inputValue st;
         isUser := true;
         timestamp := now;
         hasChart := None;
         chartData := None |} in
    setInputValue ""
      (simulateAIResponse (inputValue st) now
         (setMessages (fun prev => (prev ++ [userMessage])%list) st)).

(** The state of the component when it is mounted. *)
Definition initialState (loadTime : Z) : State :=
  {| messages := initialMessages loadTime;
     inputValue := "";
     isTyping := false;
     timers := [] |}.

(** What happens to the mounted component: the input box changes (typing,
    or a quick-action button), the send button or the Enter key runs
    [handleSendMessage], or the oldest pending timer fires. *)
Inductive Event :=
| Change (value : string)
| Send (now : Z)
| Timeout (now : Z).

(** One event; a timer fires only when there is one and it is due, and
    timers, all of the same delay, fire in the order they were set. *)
Definition step (st : State) (e : Event) : option State :=
  match e with
  | Change v => Some (setInputValue v st)
  | Send now => Some (handleSendMessage now st)
  | Timeout now =>
      match timers st with
      | [] => None
      | t :: rest =>
          if due t <=? now then
            Some (timeoutCallback (userMessage t) now
                    {| messages := messages st;
                       inputValue := inputValue st;
                       isTyping := isTyping st;
                       timers := rest |})
          else None
      end
  end.

Fixpoint run (st : State) (es : list Event) : option State :=
  match es with
  | [] => Some st
  | e :: es' =>
      match step st e with
      | Some st' => run st' es'
      | None => None
      end
  end.

(** The controller's [submit(text)]: [text] is put in the input box and
    sent. *)
Definition submit (text : string) (now : Z) (st : State) : State :=
  handleSendMessage now (setInputValue text st).

(** The fields of [React.KeyboardEvent] that [handleKeyPress] reads. *)
Record KeyboardEvent := { key : string; shiftKey : bool }.

(** [handleKeyPress], run at clock reading [now]: the state it leaves and
    whether it called [e.preventDefault()]. *)
Definition handleKeyPress (e : KeyboardEvent) (now : Z) (st : State) : State * bool :=
  if String.eqb (key e) "Enter" && negb (shiftKey e)
  then (handleSendMessage now st, true)
  else (st, false).

(** The send button's [disabled={!inputValue.trim()}]. *)
Definition sendDisabled (st : State) : bool :=
  JS.not_string (JS.trim (inputValue st)).

(** [message.hasChart && message.chartData && (...)] in the message
    list: the payload handed to [FinancialChart], if the chart is drawn. *)
Definition chartShown (m : Message) : option ChartData :=
  match hasChart m with
  | Some true => chartData m
  | _ => None
  end.

End FinancialChat.

(** ** [ProfileSidebar] and the page [FinancialAdvisor] *)

Module ProfileSidebar.

(** [quickActions]: the label of each button and the text it hands to
    [onQuickAction]. *)
Record QuickAction := { label : string; action : string }.

Definition quickActions : list QuickAction :=
  [ {| label := "Check Portfolio"; action := "Show me my portfolio performance" |};
    {| label := "Asset Allocation"; action := "Review my asset allocation" |};
    {| label := "Retirement Goals"; action := "Am I on track for retirement?" |};
    {| label := "Explain Term"; action := "What is compound interest?" |} ].

End ProfileSidebar.

Module FinancialAdvisor.

(** The page's two [useState] cells and the state of the [FinancialChat]
    it mounts; the chat is rendered without props. *)
Record State :=
  { sidebarOpen : bool;
    inputValue : string;
    chat : FinancialChat.State }.

Definition setSidebarOpen (b : bool) (st : State) : State :=
  {| sidebarOpen := b; inputValue := inputValue st; chat := chat st |}.

Definition setInputValue (v : string) (st : State) : State :=
  {| sidebarOpen := sidebarOpen st; inputValue := v; chat := chat st |}.

(** [handleQuickAction], the [onQuickAction] of the sidebar. *)
Definition handleQuickAction (action : string) (st : State) : State :=
  setInputValue action st.

Definition initialState (loadTime : Z) : State :=
  {| sidebarOpen := true;
     inputValue := "";
     chat := FinancialChat.initialState loadTime |}.

(** What happens on the page: the toggle button is clicked, the overlay
    (drawn only while the sidebar is open) is clicked, the sidebar button
    at [index] is clicked, or something happens to the chat. *)
Inductive Event :=
| Toggle
| Overlay
| QuickAction (index : nat)
| Chat (e : FinancialChat.Event).

Definition step (st : State) (e : Event) : option State :=
  match e with
  | Toggle => Some (setSidebarOpen (negb (sidebarOpen st)) st)
  | Overlay => if sidebarOpen st then Some (setSidebarOpen false st) else None
  | QuickAction index =>
      match nth_error ProfileSidebar.quickActions index with
      | Some a => Some (handleQuickAction (ProfileSidebar.action a) st)
      | None => None
      end
  | Chat e =>
      match FinancialChat.step (chat st) e with
      | Some c => Some {| sidebarOpen := sidebarOpen st;
                          inputValue := inputValue st;
                          chat := c |}
      | None => None
      end
  end.

Fixpoint run (st : State) (es : list Event) : option State :=
  match es with
  | [] => Some st
  | e :: es' =>
      match step st e with
      | Some st' => run st' es'
      | None => None
      end
  end.

(** The events of a page run that are the chat's own. *)
Definition chatEvents (es : list Event) : list FinancialChat.Event :=
  flat_map (fun e => match e with
                     | Chat c => [c]
                     | _ => []
                     end) es.

End FinancialAdvisor.

(** ** The vocabulary of the specification *)

Module Spec.
Import FinancialChat.

(** Two strings are equal up to letter case. *)
Definition equalsIgnoreCase (a b : string) : bool :=
  String.eqb (JS.toLowerCase a) (JS.toLowerCase b).

(** Case-insensitive substring match: at some position, the window of
    the utterance as long as the keyword equals it up to letter case. *)
Fixpoint containsIgnoreCase (u kw : string) : bool :=
  equalsIgnoreCase (substring 0 (String.length kw) u) kw
  || match u with
     | EmptyString => false
     | String _ u' => containsIgnoreCase u' kw
     end.

(** The four response categories. *)
Inductive Category := Performance | Allocation | Retirement | Fallback.

(** The fixed, ordered list of keyword groups. *)
Definition keywordGroups : list (list string * Category) :=
  [ (["portfolio"; "performance"], Performance);
    (["allocation"; "diversif"], Allocation);
    (["retirement"; "goal"], Retirement) ].

Definition matchesGroup (u : string) (kws : list string) : bool :=
  existsb (containsIgnoreCase u) kws.

(** First match wins; no match is the fallback. *)
Fixpoint firstMatch (groups : list (list string * Category)) (u : string) : Category :=
  match groups with
  | [] => Fallback
  | (kws, c) :: rest => if matchesGroup u kws then c else firstMatch rest u
  end.

(** The canned reply of a category and its chart, if it has one. *)
Definition cannedReply (c : Category) : Reply.t :=
  match c with
  | Performance =>
      {| Reply.response := performanceResponse;
         Reply.hasChart := true;
         Reply.chartData := Some (line performanceData) |}
  | Allocation =>
      {| Reply.response := allocationResponse;
         Reply.hasChart := true;
         Reply.chartData := Some (pie allocationData) |}
  | Retirement =>
      {| Reply.response := retirementResponse;
         Reply.hasChart := false;
         Reply.chartData := None |}
  | Fallback =>
      {| Reply.response := fallbackResponse;
         Reply.hasChart := false;
         Reply.chartData := None |}
  end.

(** The classifier as the specification words it. *)
Definition classifier (u : string) : Reply.t :=
  cannedReply (firstMatch keywordGroups u).

(** A string that is empty or consists only of white space. *)
Fixpoint onlyWhiteSpace (s : string) : bool :=
  match s with
  | EmptyString => true
  | String c s' => JS.isWhiteSpace c && onlyWhiteSpace s'
  end.

Definition sum (l : list Z) : Z := fold_right Z.add 0 l.

(** The values of a pie payload and the values it recommends (a slice
    without a recommendation counts 0). *)
Definition values (d : list Pie.slice) : list Z := map Pie.value d.

Definition recommendedValues (d : list Pie.slice) : list Z :=
  map (fun item => match Pie.recommended item with
                   | Some r => r
                   | None => 0
                   end) d.

(** Recommended minus current value, category by category. *)
Definition differences (d : list Pie.slice) : list Z :=
  map (fun item => match Pie.recommended item with
                   | Some r => r - Pie.value item
                   | None => 0
                   end) d.

(** A message without its identifier and time stamp. *)
Definition Entry : Type := bool * string * option bool * option ChartData.

Definition entry (m : Message) : Entry :=
  (isUser m, content m, hasChart m, chartData m).

Definition fromUser (e : Entry) : bool := fst (fst (fst e)).

Definition fromAssistant (e : Entry) : bool := negb (fromUser e).

Definition greetingEntry : Entry := (false, greeting, None, None).

Definition userEntry (text : string) : Entry := (true, text, None, None).

Definition replyEntry (text : string) : Entry :=
  (false, Reply.response (classify text),
   Some (Reply.hasChart (classify text)), Reply.chartData (classify text)).

(** A user message directly followed by the reply to it. *)
Definition pair (text : string) : list Entry := [userEntry text; replyEntry text].

(** A session as the controller sees it: texts are submitted and
    pending responses resolve, each at some clock reading. *)
Inductive Action :=
| Submit (text : string) (now : Z)
| Resolve (now : Z).

Definition events (a : Action) : list Event :=
  match a with
  | Submit text now => [Change text; Send now]
  | Resolve now => [Timeout now]
  end.

Definition session (sched : list Action) : list Event := flat_map events sched.

(** The texts submitted in a session, in order. *)
Definition submitted (sched : list Action) : list string :=
  flat_map (fun a => match a with
                     | Submit text _ => [text]
                     | Resolve _ => []
                     end) sched.

(** Every submission of the session passes the emptiness check. *)
Definition nonEmptySubmissions (sched : list Action) : Prop :=
  Forall (fun text => JS.trim text <> "") (submitted sched).

(** A session in which every response resolves before the next text
    is submitted. *)
Definition round (r : string * Z * Z) : list Action :=
  let '(text, sent, resolved) := r in [Submit text sent; Resolve resolved].

Definition oneAtATime (rounds : list (string * Z * Z)) : list Action :=
  flat_map round rounds.

(** Two texts submitted half a second apart, each answered a second and
    a half after it was sent. *)
Definition overlapping : list Action :=
  [Submit "goal" 1000; Submit "portfolio" 1500; Resolve 2500; Resolve 3000].

(** In every initial segment of the messages after the greeting there are
    at most as many replies as user messages. *)
Definition repliesFollow (body : list Entry) : Prop :=
  forall k, (List.length (filter fromAssistant (firstn k body))
             <= List.length (filter fromUser (firstn k body)))%nat.

(** What the conversation holds once the texts [inputs] have been
    submitted: the greeting, then the user messages in the order of
    submission interleaved with the replies to those that are no longer
    pending, in the same order. *)
Definition consistent (inputs : list string) (st : State) : Prop :=
  exists answered body,
    inputs = (answered ++ map userMessage (timers st))%list /\
    map entry (messages st) = greetingEntry :: body /\
    filter fromUser body = map userEntry inputs /\
    filter fromAssistant body = map replyEntry answered /\
    repliesFollow body.

End Spec.

(** ** Notions used to state properties of runs *)

Module Runs.
Import FinancialChat.

(** The clock readings of a run, in order: one for each send and each
    timer callback. *)
Definition readings (es : list Event) : list Z :=
  flat_map (fun e => match e with
                     | Change _ => []
                     | Send now => [now]
                     | Timeout now => [now]
                     end) es.

(** A message is blank when trimming its content leaves nothing. *)
Definition blank (m : Message) : bool := JS.not_string (JS.trim (content m)).

(** Every character of the string passes the test. *)
Fixpoint allChars (f : ascii -> bool) (s : string) : bool :=
  match s with
  | EmptyString => true
  | String c s' => f c && allChars f s'
  end.

(** A keyword: not empty, and without white space in it. *)
Definition solid (kw : string) : bool :=
  negb (JS.not_string kw) && allChars (fun c => negb (JS.isWhiteSpace c)) kw.

(** A state the mounted component can be in: what some run of events
    leaves, from the initial state. *)
Definition reachable (st : State) : Prop :=
  exists loadTime es, run (initialState loadTime) es = Some st.

(** The three kinds of message the component builds: a user message with
    a text that passed the guard and no chart fields, the greeting, and a
    reply carrying what the keyword chain gave for some text. *)
Definition wellFormed (m : Message) : Prop :=
  if isUser m
  then JS.trim (content m) <> "" /\ hasChart m = None /\ chartData m = None
  else (content m = greeting /\ hasChart m = None /\ chartData m = None) \/
       (exists u,
          content m = Reply.response (classify u) /\
          hasChart m = Some (Reply.hasChart (classify u)) /\
          chartData m = Reply.chartData (classify u)).

(** The place of a category in the keyword chain: the earlier the
    branch, the smaller the number. *)
Definition priority (c : Spec.Category) : nat :=
  match c with
  | Spec.Performance => 0
  | Spec.Allocation => 1
  | Spec.Retirement => 2
  | Spec.Fallback => 3
  end.

End Runs.

(** * Properties *)

(** ** The built-ins *)

Section BuiltIns.
Import JS.

Lemma lowerChar_idempotent (c : ascii) : lowerChar (lowerChar c) = lowerChar c.
Proof. destruct c as [[] [] [] [] [] [] [] []]; reflexivity. Qed.

Lemma toLowerCase_idempotent (s : string) :
  toLowerCase (toLowerCase s) = toLowerCase s.
Proof.
  induction s as [|c s IH]; simpl; [reflexivity|].
  now rewrite lowerChar_idempotent, IH.
Qed.

Lemma toLowerCase_length (s : string) :
  String.length (toLowerCase s) = String.length s.
Proof. induction s; simpl; congruence. Qed.

Lemma toLowerCase_append (s t : string) :
  toLowerCase (s ++ t) = toLowerCase s ++ toLowerCase t.
Proof. induction s; simpl; congruence. Qed.

(** [String.prefix] is a comparison of the window with the candidate. *)
Lemma prefix_window (p s : string) :
  String.prefix p s = String.eqb (substring 0 (String.length p) s) p.
Proof.
  revert p; induction s as [|b s IH]; intros [|a p]; simpl; try reflexivity.
  rewrite IH. destruct (ascii_dec a b) as [->|Hab].
  - now rewrite Ascii.eqb_refl.
  - destruct (Ascii.eqb_spec b a) as [->|_]; [contradiction|reflexivity].
Qed.

Lemma toLowerCase_substring (n : nat) (s : string) :
  toLowerCase (substring 0 n s) = substring 0 n (toLowerCase s).
Proof.
  revert s; induction n as [|n IH]; intros [|c s]; simpl; try reflexivity.
  now rewrite IH.
Qed.

(** A string includes another exactly when it splits around it. *)
Lemma prefix_split (p s : string) :
  String.prefix p s = true <-> exists post, s = p ++ post.
Proof.
  revert s; induction p as [|a p IH]; intros s; simpl.
  - destruct s; simpl; split; eauto.
  - destruct s as [|b s]; simpl.
    + split; [discriminate|intros [post H]; discriminate].
    + destruct (ascii_dec a b) as [->|Hab].
      * rewrite IH. split; intros [post H]; exists post; congruence.
      * split; [discriminate|]. intros [post H]. congruence.
Qed.

Lemma includes_empty (sub : string) :
  includes "" sub = String.prefix sub "" || false.
Proof. reflexivity. Qed.

Lemma includes_String (c : ascii) (s sub : string) :
  includes (String c s) sub = String.prefix sub (String c s) || includes s sub.
Proof. reflexivity. Qed.

Lemma includes_split (s sub : string) :
  includes s sub = true <-> exists pre post, s = pre ++ sub ++ post.
Proof.
  induction s as [|c s IH].
  - rewrite includes_empty, orb_true_iff, prefix_split. split.
    + intros [[post H]|H]; [|discriminate]. now exists "", post.
    + intros [[|a pre] [post H]]; [left; now exists post|discriminate].
  - rewrite includes_String, orb_true_iff, prefix_split, IH. split.
    + intros [[post H]|[pre [post H]]].
      * now exists "", post.
      * exists (String c pre), post. simpl. now rewrite H.
    + intros [[|a pre] [post H]].
      * left. now exists post.
      * right. exists pre, post. simpl in H. congruence.
Qed.

(** [trim] leaves nothing exactly of the strings made of white space. *)
Lemma trimStart_empty (s : string) :
  trimStart s = "" <-> Spec.onlyWhiteSpace s = true.
Proof.
  induction s as [|c s IH]; simpl; [tauto|].
  destruct (isWhiteSpace c); simpl; [exact IH|].
  split; discriminate.
Qed.

Lemma trimEnd_empty (s : string) :
  trimEnd s = "" <-> Spec.onlyWhiteSpace s = true.
Proof.
  induction s as [|c s IH]; simpl; [tauto|].
  destruct (trimEnd s) eqn:E.
  - destruct (isWhiteSpace c); simpl; [tauto|]. split; discriminate.
  - split; [discriminate|]. intros H. apply andb_true_iff in H.
    destruct H as [_ H]. apply IH in H. discriminate.
Qed.

Lemma trimStart_white (s : string) :
  Spec.onlyWhiteSpace (trimStart s) = true -> Spec.onlyWhiteSpace s = true.
Proof.
  induction s as [|c s IH]; simpl; [tauto|].
  destruct (isWhiteSpace c) eqn:E; simpl; [exact IH|].
  now rewrite E.
Qed.

Lemma trim_empty (s : string) :
  trim s = "" <-> Spec.onlyWhiteSpace s = true.
Proof.
  unfold trim. rewrite trimEnd_empty. split.
  - apply trimStart_white.
  - intros H. apply trimStart_empty in H. now rewrite H.
Qed.

Lemma not_string_true (s : string) : not_string s = true <-> s = "".
Proof. destruct s; simpl; split; congruence. Qed.

Lemma not_string_false (s : string) : not_string s = false <-> s <> "".
Proof. destruct s; simpl; split; congruence. Qed.

End BuiltIns.

(** ** The response classifier *)

Section Classifier.
Import JS FinancialChat Spec.

(** The specification's match is [includes] on the lowered strings. *)
Lemma containsIgnoreCase_includes (u kw : string) :
  containsIgnoreCase u kw = includes (toLowerCase u) (toLowerCase kw).
Proof.
  assert (W : forall s, equalsIgnoreCase (substring 0 (String.length kw) s) kw
                        = String.prefix (toLowerCase kw) (toLowerCase s)).
  { intros s. unfold equalsIgnoreCase.
    now rewrite prefix_window, toLowerCase_length, toLowerCase_substring. }
  induction u as [|c u IH].
  - cbn [containsIgnoreCase]. now rewrite W.
  - cbn [containsIgnoreCase]. rewrite W, IH. reflexivity.
Qed.

Lemma containsIgnoreCase_keyword (u kw : string) :
  toLowerCase kw = kw ->
  containsIgnoreCase u kw = includes (toLowerCase u) kw.
Proof. intros H. now rewrite containsIgnoreCase_includes, H. Qed.

Lemma toLowerCase_split (u a b : string) :
  toLowerCase u = a ++ b ->
  exists a' b', u = a' ++ b' /\ toLowerCase a' = a /\ toLowerCase b' = b.
Proof.
  revert u; induction a as [|c a IH]; intros u H.
  - exists "", u. now repeat split.
  - destruct u as [|d u]; [discriminate|]. simpl in H.
    injection H as Hc Hu. apply IH in Hu.
    destruct Hu as (a' & b' & -> & Ha & Hb).
    exists (String d a'), b'. simpl. now rewrite Hc, Ha, Hb.
Qed.

(** The specification's match holds exactly when some stretch of the
    utterance equals the keyword up to letter case. *)
Lemma containsIgnoreCase_stretch (u kw : string) :
  containsIgnoreCase u kw = true <->
  exists pre v post, u = pre ++ v ++ post /\ equalsIgnoreCase v kw = true.
Proof.
  rewrite containsIgnoreCase_includes, includes_split. unfold equalsIgnoreCase.
  split.
  - intros (pre & post & H).
    apply toLowerCase_split in H. destruct H as (pre' & rest & -> & _ & H).
    apply toLowerCase_split in H. destruct H as (v & post' & -> & Hv & _).
    exists pre', v, post'. split; [reflexivity|]. now apply String.eqb_eq.
  - intros (pre & v & post & -> & H). apply String.eqb_eq in H.
    exists (toLowerCase pre), (toLowerCase post).
    now rewrite !toLowerCase_append, H.
Qed.

Lemma matchesGroup_two (u k1 k2 : string) :
  toLowerCase k1 = k1 -> toLowerCase k2 = k2 ->
  matchesGroup u [k1; k2]
  = includes (toLowerCase u) k1 || includes (toLowerCase u) k2.
Proof.
  intros H1 H2. unfold matchesGroup. cbn [existsb].
  rewrite !containsIgnoreCase_keyword by assumption.
  now rewrite orb_false_r.
Qed.

(** The chain of the source, branch by branch, in the words of the
    specification. *)
Lemma classify_chain (u : string) :
  classify u =
  if matchesGroup u ["portfolio"; "performance"] then cannedReply Performance
  else if matchesGroup u ["allocation"; "diversif"] then cannedReply Allocation
  else if matchesGroup u ["retirement"; "goal"] then cannedReply Retirement
  else cannedReply Fallback.
Proof.
  rewrite !matchesGroup_two by reflexivity. reflexivity.
Qed.

(** The two utterances the specification lists, and the three the quick
    action buttons put in the input box. *)
Example on_track_for_retirement :
  classify "Am I on track for retirement?" = cannedReply Retirement.
Proof. reflexivity. Qed.

Example no_keyword :
  classify "asdf123" = cannedReply Fallback.
Proof. reflexivity. Qed.

Example quick_actions :
  classify "Show me my portfolio performance" = cannedReply Performance /\
  classify "Review my asset allocation" = cannedReply Allocation.
Proof. split; reflexivity. Qed.

Lemma cannedReply_injective (c d : Category) :
  cannedReply c = cannedReply d -> c = d.
Proof.
  intros H. apply (f_equal Reply.response) in H.
  destruct c, d; try reflexivity; vm_compute in H; discriminate H.
Qed.

(** C1.  For every utterance the classifier of the source returns what
    the specification's classifier returns: the reply of the first of the
    ordered keyword groups ("portfolio"/"performance" with the line
    chart, "allocation"/"diversif" with the pie chart,
    "retirement"/"goal" without chart) one of whose keywords occurs in
    the utterance up to letter case, and the fallback reply without chart
    when none does. *)
Theorem classify_first_match (u : string) :
  classify u = Spec.classifier u.
Proof.
  rewrite classify_chain. unfold Spec.classifier, keywordGroups.
  cbn [firstMatch].
  destruct (matchesGroup u ["portfolio"; "performance"]); [reflexivity|].
  destruct (matchesGroup u ["allocation"; "diversif"]); [reflexivity|].
  destruct (matchesGroup u ["retirement"; "goal"]); reflexivity.
Qed.

(** C7.  The classifier returns for an utterance what it returns for
    the lowered utterance: same reply, same chart payload. *)
Theorem classify_toLowerCase (u : string) :
  classify (toLowerCase u) = classify u.
Proof.
  unfold classify. now rewrite toLowerCase_idempotent.
Qed.

(** C8.  The classifier returns, for every utterance, the empty one
    included, exactly one of the four canned replies, and the fallback
    reply when no keyword group matches. *)
Theorem classify_total (u : string) :
  (exists! c, classify u = cannedReply c) /\
  (forallb (fun g => negb (matchesGroup u (fst g))) keywordGroups = true ->
   classify u = cannedReply Fallback).
Proof.
  split.
  - rewrite classify_chain.
    destruct (matchesGroup u ["portfolio"; "performance"]);
      [exists Performance|
       destruct (matchesGroup u ["allocation"; "diversif"]);
       [exists Allocation|
        destruct (matchesGroup u ["retirement"; "goal"]);
        [exists Retirement|exists Fallback]]];
      (split; [reflexivity|intros d Hd; now apply cannedReply_injective]).
  - rewrite classify_chain. unfold keywordGroups. cbn [forallb fst].
    rewrite !andb_true_iff, !negb_true_iff.
    intros (H1 & H2 & H3 & _). now rewrite H1, H2, H3.
Qed.

Lemma classify_total_witness :
  classify "" = cannedReply Fallback /\ classify "asdf123" = cannedReply Fallback.
Proof.
  split.
  - apply (proj2 (classify_total "")). reflexivity.
  - apply (proj2 (classify_total "asdf123")). reflexivity.
Defined.

(** C4.  An utterance in which "portfolio" or "performance" occurs up
    to letter case gets the performance reply, with a line payload of
    exactly twelve points in the order January to December. *)
Theorem classify_performance (u : string) :
  matchesGroup u ["portfolio"; "performance"] = true ->
  classify u = cannedReply Performance /\
  exists points,
    Reply.chartData (classify u) = Some (line points) /\
    List.length points = 12%nat /\
    map Line.month points
    = ["Jan"; "Feb"; "Mar"; "Apr"; "May"; "Jun";
       "Jul"; "Aug"; "Sep"; "Oct"; "Nov"; "Dec"] /\
    map Line.value points
    = [95000; 97200; 96800; 99100; 101500; 103200;
       105800; 104200; 107600; 109200; 112400; 115800].
Proof.
  intros H. rewrite classify_chain, H. split; [reflexivity|].
  exists performanceData. repeat split.
Qed.

Lemma classify_performance_witness :
  classify "Show me my PORTFOLIO Performance" = cannedReply Performance.
Proof.
  apply (classify_performance "Show me my PORTFOLIO Performance").
  reflexivity.
Defined.

(** C3, as stated, fails: an utterance with "allocation" in it that
    also has "portfolio" in it gets the performance reply and the line
    payload. *)
Lemma allocation_after_portfolio :
  "portfolio allocation" <> "" /\
  matchesGroup "portfolio allocation" ["allocation"; "diversif"] = true /\
  classify "portfolio allocation" = cannedReply Performance /\
  classify "portfolio allocation" <> cannedReply Allocation /\
  Reply.chartData (classify "portfolio allocation") = Some (line performanceData).
Proof.
  repeat split; try reflexivity; discriminate.
Qed.

(** C3, amended.  An utterance in which "allocation" or "diversif"
    occurs up to letter case, and neither "portfolio" nor "performance"
    does, gets the allocation reply, with a pie payload of exactly five
    categories whose values sum to 100. *)
Theorem classify_allocation (u : string) :
  matchesGroup u ["allocation"; "diversif"] = true ->
  matchesGroup u ["portfolio"; "performance"] = false ->
  classify u = cannedReply Allocation /\
  exists slices,
    Reply.chartData (classify u) = Some (pie slices) /\
    List.length slices = 5%nat /\
    map Pie.name slices
    = ["Australian Shares"; "International Shares"; "Property"; "Bonds"; "Cash"] /\
    Spec.sum (values slices) = 100.
Proof.
  intros Ha Hp. rewrite classify_chain, Hp, Ha. split; [reflexivity|].
  exists allocationData. repeat split.
Qed.

Lemma classify_allocation_witness :
  classify "Review my asset Allocation" = cannedReply Allocation.
Proof.
  apply (classify_allocation "Review my asset Allocation"); reflexivity.
Defined.

End Classifier.

(** ** The allocation payload and the recommendations section *)

Section Recommendations.
Import FinancialChat Spec.

(** C10.  In the pie payload of the allocation reply the recommended
    values are 40, 30, 10, 15 and 5 and sum to 100, the total of the
    current values; the differences the recommendations section shows
    (+5, +5, -5, -5; the unchanged category is left out) sum to 0, and so
    do the differences over all five categories. *)
Theorem allocation_recommended_total :
  Reply.chartData (classify "Review my asset allocation") = Some (pie allocationData) /\
  recommendedValues allocationData = [40; 30; 10; 15; 5] /\
  Spec.sum (recommendedValues allocationData) = 100 /\
  Spec.sum (recommendedValues allocationData) = Spec.sum (values allocationData) /\
  FinancialChart.shownChanges (pie allocationData) = [5; 5; -5; -5] /\
  Spec.sum (FinancialChart.shownChanges (pie allocationData)) = 0 /\
  Spec.sum (differences allocationData) = 0.
Proof.
  assert (R : recommendedValues allocationData = [40; 30; 10; 15; 5]) by reflexivity.
  assert (S : FinancialChart.shownChanges (pie allocationData) = [5; 5; -5; -5])
    by reflexivity.
  rewrite S, R. repeat split.
Qed.

End Recommendations.

(** ** The conversation *)

Section Conversation.
Import JS FinancialChat Spec.

Lemma handleSendMessage_rejects (now : Z) (st : State) :
  onlyWhiteSpace (inputValue st) = true -> handleSendMessage now st = st.
Proof.
  intros H. apply trim_empty in H. unfold handleSendMessage. now rewrite H.
Qed.

Lemma handleSendMessage_accepts (now : Z) (st : State) :
  trim (inputValue st) <> "" ->
  handleSendMessage now st =
  {| messages := (messages st ++
                  [ {| id := JS.toString now;
                       content := inputValue st;
                       isUser := true;
                       timestamp := now;
                       hasChart := None;
                       chartData := None |} ])%list;
     inputValue := "";
     isTyping := true;
     timers := (timers st ++
                [ {| userMessage := inputValue st; due := now + 1500 |} ])%list |}.
Proof.
  intros H. apply not_string_false in H. unfold handleSendMessage.
  now rewrite H.
Qed.

(** C5.  When the text is empty or made of white space only, sending it
    leaves the state as it was when the handler was entered: no message
    is added, none is changed, no timer is registered and the typing
    indicator is not switched on; the handler returns without raising. *)
Theorem submit_whitespace (text : string) (now : Z) (st : State) :
  onlyWhiteSpace text = true ->
  handleSendMessage now (setInputValue text st) = setInputValue text st /\
  messages (submit text now st) = messages st /\
  timers (submit text now st) = timers st /\
  isTyping (submit text now st) = isTyping st.
Proof.
  intros H. unfold submit.
  rewrite handleSendMessage_rejects by exact H.
  repeat split.
Qed.

Lemma submit_whitespace_witness :
  messages (submit "" 7 (initialState 0)) = initialMessages 0 /\
  messages (submit (String "009" (String "160" "  ")) 7 (initialState 0))
  = initialMessages 0.
Proof.
  split.
  - apply (submit_whitespace "" 7 (initialState 0)). reflexivity.
  - apply (submit_whitespace (String "009" (String "160" "  ")) 7 (initialState 0)).
    reflexivity.
Defined.

(** C9.  When the trimmed text is not empty, sending it appends one user
    message whose content is the text as typed, leading and trailing
    white space included, and the pending timer holds the same text. *)
Theorem submit_keeps_text (text : string) (now : Z) (st : State) :
  trim text <> "" ->
  messages (submit text now st) =
  (messages st ++ [ {| id := JS.toString now;
                       content := text;
                       isUser := true;
                       timestamp := now;
                       hasChart := None;
                       chartData := None |} ])%list /\
  timers (submit text now st) =
  (timers st ++ [ {| userMessage := text; due := now + 1500 |} ])%list.
Proof.
  intros H. unfold submit.
  rewrite handleSendMessage_accepts by exact H.
  split; reflexivity.
Qed.

Lemma submit_keeps_text_witness :
  map content (messages (submit "  goal  " 7 (initialState 0)))
  = [greeting; "  goal  "].
Proof.
  rewrite (proj1 (submit_keeps_text "  goal  " 7 (initialState 0)
                    ltac:(vm_compute; discriminate))).
  reflexivity.
Defined.

Lemma step_appends (st st' : State) (e : Event) :
  step st e = Some st' ->
  exists added, messages st' = (messages st ++ added)%list /\ (List.length added <= 1)%nat.
Proof.
  destruct e as [v|now|now]; simpl.
  - intros [= <-]. exists []. simpl. split; [now rewrite app_nil_r|lia].
  - intros [= <-]. unfold handleSendMessage.
    destruct (not_string (trim (inputValue st))).
    + exists []. simpl. split; [now rewrite app_nil_r|lia].
    + eexists [_]. simpl. split; [reflexivity|lia].
  - destruct (timers st) as [|t rest]; [discriminate|].
    destruct (due t <=? now); [|discriminate].
    intros [= <-]. eexists [_]. simpl. split; [reflexivity|lia].
Qed.

Lemma run_appends (es : list Event) :
  forall st st', run st es = Some st' ->
  exists added, messages st' = (messages st ++ added)%list.
Proof.
  induction es as [|e es IH]; intros st st'; simpl.
  - intros [= <-]. exists []. now rewrite app_nil_r.
  - destruct (step st e) as [st1|] eqn:E; [|discriminate].
    intros H. apply IH in H. destruct H as [added2 H2].
    apply step_appends in E. destruct E as (added1 & H1 & _).
    exists (added1 ++ added2)%list. now rewrite H2, H1, app_assoc.
Qed.

(** C6.  Whatever happens to the component (the input changes, a message
    is sent, a pending response arrives), the messages it held before are
    an initial segment of those it holds after: every index that was
    filled keeps its message, and what is new comes after. *)
Theorem messages_append_only (st st' : State) (es : list Event) :
  run st es = Some st' ->
  exists added,
    messages st' = (messages st ++ added)%list /\
    forall i m, nth_error (messages st) i = Some m ->
                nth_error (messages st') i = Some m.
Proof.
  intros H. apply run_appends in H. destruct H as [added H].
  exists added. split; [exact H|].
  intros i m Hi. rewrite H. rewrite nth_error_app1; [exact Hi|].
  apply nth_error_Some. congruence.
Qed.

Lemma messages_append_only_witness :
  exists st' added,
    run (initialState 0) [Change "goal"; Send 1000; Timeout 2500] = Some st' /\
    messages st' = (initialMessages 0 ++ added)%list.
Proof.
  eexists.
  destruct (messages_append_only (initialState 0) _
              [Change "goal"; Send 1000; Timeout 2500] eq_refl)
    as (added & H & _).
  exists added. split; [reflexivity|exact H].
Defined.

(** *** What a session leaves in the conversation *)

Lemma filter_sides_length (body : list Entry) :
  List.length body
  = (List.length (filter fromUser body) + List.length (filter fromAssistant body))%nat.
Proof.
  induction body as [|e body IH]; simpl; [reflexivity|].
  unfold fromAssistant at 1. destruct (fromUser e); simpl; lia.
Qed.

Lemma firstn_snoc {A : Type} (k : nat) (l : list A) (x : A) :
  firstn k (l ++ [x]) = firstn k l \/ firstn k (l ++ [x]) = (l ++ [x])%list.
Proof.
  destruct (Nat.le_gt_cases k (List.length l)) as [Hk|Hk].
  - left. rewrite firstn_app.
    replace (k - List.length l)%nat with 0%nat by lia.
    simpl. apply app_nil_r.
  - right. apply firstn_all2. rewrite length_app. simpl. lia.
Qed.

Lemma repliesFollow_nil : repliesFollow [].
Proof. intros k. now rewrite firstn_nil. Qed.

Lemma repliesFollow_user (body : list Entry) (e : Entry) :
  fromUser e = true -> repliesFollow body -> repliesFollow (body ++ [e]).
Proof.
  intros He H k. destruct (firstn_snoc k body e) as [-> | ->]; [apply H|].
  rewrite !filter_app, !length_app. cbn [filter]. unfold fromAssistant at 2.
  rewrite He. simpl.
  specialize (H (List.length body)). rewrite firstn_all in H. lia.
Qed.

Lemma repliesFollow_reply (body : list Entry) (e : Entry) :
  fromUser e = false ->
  (List.length (filter fromAssistant body) < List.length (filter fromUser body))%nat ->
  repliesFollow body -> repliesFollow (body ++ [e]).
Proof.
  intros He Hlt H k. destruct (firstn_snoc k body e) as [-> | ->]; [apply H|].
  rewrite !filter_app, !length_app. cbn [filter]. unfold fromAssistant at 2.
  rewrite He. simpl. lia.
Qed.

Lemma consistent_initial (loadTime : Z) : consistent [] (initialState loadTime).
Proof.
  exists [], []. repeat split. apply repliesFollow_nil.
Qed.

Lemma consistent_submit (inputs : list string) (text : string) (now : Z) (st : State) :
  trim text <> "" ->
  consistent inputs st ->
  consistent (inputs ++ [text]) (submit text now st).
Proof.
  intros Ht (answered & body & Hin & Hm & Hu & Ha & Hf).
  exists answered, (body ++ [userEntry text])%list.
  unfold submit. rewrite handleSendMessage_accepts by exact Ht.
  cbn [messages timers inputValue setInputValue].
  rewrite !map_app, !filter_app, Hm, Hu, Ha. cbn.
  repeat split.
  - now rewrite Hin, app_assoc.
  - now rewrite app_nil_r.
  - now apply repliesFollow_user.
Qed.

Lemma consistent_resolve (inputs : list string) (now : Z) (st st' : State) :
  step st (Timeout now) = Some st' ->
  consistent inputs st ->
  consistent inputs st'.
Proof.
  intros Hs (answered & body & Hin & Hm & Hu & Ha & Hf). simpl in Hs.
  destruct (timers st) as [|t rest]; [discriminate|].
  destruct (due t <=? now); [|discriminate].
  injection Hs as <-.
  exists (answered ++ [userMessage t])%list, (body ++ [replyEntry (userMessage t)])%list.
  cbn. rewrite !map_app, !filter_app, Hm, Hu, Ha. cbn.
  repeat split.
  - rewrite Hin. cbn. now rewrite <- app_assoc.
  - now rewrite app_nil_r.
  - apply repliesFollow_reply; [reflexivity| |exact Hf].
    rewrite Hu, Ha, !length_map, Hin, length_app. cbn. lia.
Qed.

Lemma consistent_session (sched : list Action) :
  forall inputs st st',
    nonEmptySubmissions sched ->
    consistent inputs st ->
    run st (session sched) = Some st' ->
    consistent (inputs ++ submitted sched) st'.
Proof.
  induction sched as [|[text now|now] sched IH]; intros inputs st st' Hne Hc Hr.
  - injection Hr as <-. cbn. now rewrite app_nil_r.
  - inversion Hne as [|x l Ht Hrest]; subst.
    change (run (submit text now st) (session sched) = Some st') in Hr.
    change (submitted (Submit text now :: sched)) with (text :: submitted sched).
    replace (inputs ++ text :: submitted sched)%list
      with ((inputs ++ [text]) ++ submitted sched)%list
      by now rewrite <- app_assoc.
    eapply IH; [exact Hrest| |exact Hr]. now apply consistent_submit.
  - change (session (Resolve now :: sched)) with (Timeout now :: session sched) in Hr.
    cbn [run] in Hr.
    destruct (step st (Timeout now)) as [st1|] eqn:E; [|discriminate].
    change (submitted (Resolve now :: sched)) with (submitted sched).
    eapply IH; [exact Hne| |exact Hr]. eapply consistent_resolve; eauto.
Qed.

Lemma oneAtATime_paired (rounds : list (string * Z * Z)) :
  forall st st',
    timers st = [] ->
    nonEmptySubmissions (oneAtATime rounds) ->
    run st (session (oneAtATime rounds)) = Some st' ->
    timers st' = [] /\
    map entry (messages st')
    = (map entry (messages st) ++ flat_map pair (submitted (oneAtATime rounds)))%list.
Proof.
  induction rounds as [|[[text sent] resolved] rounds IH]; intros st st' Hq Hne Hr.
  - injection Hr as <-. cbn. now rewrite app_nil_r.
  - change (oneAtATime ((text, sent, resolved) :: rounds))
      with (Submit text sent :: Resolve resolved :: oneAtATime rounds) in *.
    inversion Hne as [|x l Ht Hrest]; subst.
    change (run (submit text sent st)
              (Timeout resolved :: session (oneAtATime rounds)) = Some st') in Hr.
    unfold submit in Hr. rewrite handleSendMessage_accepts in Hr by exact Ht.
    cbn [run step timers inputValue setInputValue messages isTyping] in Hr.
    rewrite Hq in Hr. cbn [app userMessage due] in Hr.
    destruct (sent + 1500 <=? resolved); [|discriminate].
    apply IH in Hr; [|reflexivity|exact Hrest].
    destruct Hr as [Hq' Hm']. split; [exact Hq'|].
    rewrite Hm'. cbn. rewrite !map_app. cbn. now rewrite <- !app_assoc.
Qed.

(** C2, as stated, fails: when a second text is submitted while the
    response to the first is pending, the two user messages come first
    and the two replies after them, so the five messages are not the
    greeting followed by two user/assistant pairs. *)
Lemma overlapping_not_paired :
  nonEmptySubmissions overlapping /\
  exists st,
    run (initialState 0) (session overlapping) = Some st /\
    timers st = [] /\
    map entry (messages st)
    = [greetingEntry; userEntry "goal"; userEntry "portfolio";
       replyEntry "goal"; replyEntry "portfolio"] /\
    map entry (messages st)
    <> greetingEntry :: flat_map pair (submitted overlapping).
Proof.
  split.
  - repeat constructor; vm_compute; discriminate.
  - eexists. split; [reflexivity|]. split; [reflexivity|].
    split; [reflexivity|]. intros H.
    apply (f_equal (map fromUser)) in H. vm_compute in H. discriminate H.
Qed.

(** C2, amended.  From the initial conversation, after a session of N
    submissions that pass the emptiness check and whose responses have
    all resolved, the conversation holds exactly 2N+1 messages: the
    greeting, then the N user messages in the order of submission and the
    N replies in the same order, the reply to a text never before the
    text; when no text is submitted while a response is pending, these are
    N user/assistant pairs. *)
Theorem conversation_after_session (loadTime : Z) (sched : list Action) (st : State) :
  nonEmptySubmissions sched ->
  run (initialState loadTime) (session sched) = Some st ->
  timers st = [] ->
  List.length (messages st) = (2 * List.length (submitted sched) + 1)%nat /\
  (exists rest, messages st = (initialMessages loadTime ++ rest)%list) /\
  (exists body,
     map entry (messages st) = greetingEntry :: body /\
     filter fromUser body = map userEntry (submitted sched) /\
     filter fromAssistant body = map replyEntry (submitted sched) /\
     repliesFollow body) /\
  (forall rounds,
     sched = oneAtATime rounds ->
     map entry (messages st) = greetingEntry :: flat_map pair (submitted sched)).
Proof.
  intros Hne Hr Hq.
  destruct (consistent_session sched [] _ _ Hne (consistent_initial loadTime) Hr)
    as (answered & body & Hin & Hm & Hu & Ha & Hf).
  cbn [app] in Hin, Hu. rewrite Hq in Hin. cbn [map] in Hin.
  rewrite app_nil_r in Hin. subst answered.
  split; [|split; [|split]].
  - rewrite <- (length_map entry), Hm. cbn [List.length].
    rewrite (filter_sides_length body), Hu, Ha, !length_map. lia.
  - exact (run_appends _ _ _ Hr).
  - exists body. now repeat split.
  - intros rounds ->.
    destruct (oneAtATime_paired rounds (initialState loadTime) st eq_refl Hne Hr)
      as [_ H].
    exact H.
Qed.

Lemma conversation_after_session_witness :
  (exists st,
     run (initialState 0) (session overlapping) = Some st /\
     List.length (messages st) = 5%nat) /\
  (exists st,
     run (initialState 0)
       (session (oneAtATime [("goal", 1000, 2500); ("portfolio", 3000, 4500)]))
     = Some st /\
     map entry (messages st)
     = [greetingEntry; userEntry "goal"; replyEntry "goal";
        userEntry "portfolio"; replyEntry "portfolio"]).
Proof.
  split.
  - eexists. split; [reflexivity|].
    apply (conversation_after_session 0 overlapping).
    + repeat constructor; vm_compute; discriminate.
    + reflexivity.
    + reflexivity.
  - eexists. split; [reflexivity|].
    refine (proj2 (proj2 (proj2
              (conversation_after_session 0
                 (oneAtATime [("goal", 1000, 2500); ("portfolio", 3000, 4500)])
                 _ _ eq_refl eq_refl)))
              [("goal", 1000, 2500); ("portfolio", 3000, 4500)] eq_refl).
    repeat constructor; vm_compute; discriminate.
Defined.

End Conversation.

(** ** More of [FinancialChat]: the send button, the Enter key, the flags *)

Section Sending.
Import JS FinancialChat Runs.

Lemma handleSendMessage_fixed (now : Z) (st : State) :
  handleSendMessage now st = st <-> trim (inputValue st) = "".
Proof.
  split.
  - intros H. destruct (trim (inputValue st)) as [|c r] eqn:E; [reflexivity|].
    rewrite handleSendMessage_accepts in H by (rewrite E; discriminate).
    apply (f_equal (fun s => List.length (messages s))) in H. cbn in H.
    rewrite length_app in H. cbn in H. lia.
  - intros H. apply handleSendMessage_rejects. now apply trim_empty.
Qed.


(** The send button is disabled exactly in the states in which
    [handleSendMessage] changes nothing: the button's test and the
    handler's guard agree. *)
Theorem sendDisabled_iff_no_effect (now : Z) (st : State) :
  sendDisabled st = true <-> handleSendMessage now st = st.
Proof.
  unfold sendDisabled. rewrite not_string_true. symmetry.
  apply handleSendMessage_fixed.
Qed.

(** A key press changes the state exactly when the key is Enter, Shift
    is not held and the input box is not blank; it suppresses the key's
    default action exactly when the key is Enter and Shift is not held,
    whatever the input box holds. *)
Theorem handleKeyPress_effect (e : KeyboardEvent) (now : Z) (st : State) :
  (fst (handleKeyPress e now st) <> st <->
   key e = "Enter" /\ shiftKey e = false /\ trim (inputValue st) <> "") /\
  (snd (handleKeyPress e now st) = true <->
   key e = "Enter" /\ shiftKey e = false).
Proof.
  unfold handleKeyPress.
  destruct (String.eqb_spec (key e) "Enter") as [K|K];
    destruct (shiftKey e) eqn:S; cbn [andb negb fst snd].
  - split; split; try easy; intros H; destruct H as (_ & H & _) || destruct H as (_ & H);
      discriminate.
  - split; split; try easy.
    + intros H. repeat split; try assumption.
      intros T. apply H. now apply handleSendMessage_fixed.
    + intros (_ & _ & T) H. apply T. now apply (handleSendMessage_fixed now).
  - split; split; try easy; intros H; destruct H as (H & _); contradiction.
  - split; split; try easy; intros H; destruct H as (H & _); contradiction.
Qed.

End Sending.

(** ** What every reachable state of [FinancialChat] satisfies *)

Section Reachable.
Import JS FinancialChat Runs.

Lemma run_invariant (P : State -> Prop) :
  (forall st e st', P st -> step st e = Some st' -> P st') ->
  forall es st st', P st -> run st es = Some st' -> P st'.
Proof.
  intros Hstep. induction es as [|e es IH]; intros st st' HP Hr.
  - injection Hr as <-. exact HP.
  - cbn [run] in Hr. destruct (step st e) as [st1|] eqn:E; [|discriminate].
    eapply IH; [|exact Hr]. eapply Hstep; eauto.
Qed.

(** The three shapes a step can take. *)
Lemma step_cases (st st' : State) (e : Event) :
  step st e = Some st' ->
  (messages st' = messages st /\ timers st' = timers st /\ isTyping st' = isTyping st) \/
  (exists now,
     trim (inputValue st) <> "" /\
     messages st' = (messages st ++
                     [ {| id := JS.toString now; content := inputValue st;
                          isUser := true; timestamp := now;
                          hasChart := None; chartData := None |} ])%list /\
     timers st' = (timers st ++
                   [ {| userMessage := inputValue st; due := now + 1500 |} ])%list /\
     isTyping st' = true /\ e = Send now) \/
  (exists now t rest,
     timers st = t :: rest /\ due t <= now /\
     messages st' = (messages st ++
                     [ {| id := JS.toString now;
                          content := Reply.response (classify (userMessage t));
                          isUser := false; timestamp := now;
                          hasChart := Some (Reply.hasChart (classify (userMessage t)));
                          chartData := Reply.chartData (classify (userMessage t)) |} ])%list /\
     timers st' = rest /\ isTyping st' = false /\ e = Timeout now).
Proof.
  destruct e as [v|now|now]; cbn [step].
  - intros [= <-]. left. now repeat split.
  - intros [= <-].
    destruct (trim (inputValue st)) as [|c r] eqn:E.
    + left. rewrite (proj2 (handleSendMessage_fixed now st) E). now repeat split.
    + right; left. exists now.
      rewrite handleSendMessage_accepts by (rewrite E; discriminate).
      split; [discriminate|]. now repeat split.
  - destruct (timers st) as [|t rest] eqn:T; [discriminate|].
    destruct (due t <=? now) eqn:D; [|discriminate].
    intros [= <-]. right; right. exists now, t, rest.
    apply Z.leb_le in D. now repeat split.
Qed.

(** At every moment the messages and the pending responses add up: the
    conversation holds the greeting, the user messages, and a reply for
    each user message whose response is not pending any more. *)
Theorem messages_and_pending (st : State) :
  reachable st ->
  (List.length (messages st) + List.length (timers st)
   = 2 * List.length (filter isUser (messages st)) + 1)%nat.
Proof.
  intros (loadTime & es & Hr).
  refine (run_invariant
            (fun s => (List.length (messages s) + List.length (timers s)
                       = 2 * List.length (filter isUser (messages s)) + 1)%nat)
            _ es _ st _ Hr); [|reflexivity].
  clear. intros st e st' H Hs.
  destruct (step_cases _ _ _ Hs)
    as [(Hm & Ht & _)|[(now & _ & Hm & Ht & _)|(now & t & rest & Hq & _ & Hm & Ht & _)]];
    rewrite Hm, Ht.
  - exact H.
  - rewrite filter_app, !length_app. cbn. lia.
  - rewrite Hq in H. rewrite filter_app, !length_app. cbn in *. lia.
Qed.

Lemma messages_and_pending_witness :
  exists st,
    run (initialState 0) [Change "goal"; Send 1000; Change "portfolio"; Send 1500;
                          Timeout 2500] = Some st /\
    (List.length (messages st) + List.length (timers st)
     = 2 * List.length (filter isUser (messages st)) + 1)%nat.
Proof.
  eexists. split; [reflexivity|].
  apply messages_and_pending.
  exists 0, [Change "goal"; Send 1000; Change "portfolio"; Send 1500; Timeout 2500].
  reflexivity.
Defined.

(** The typing indicator is never left on: while it shows, a response is
    pending. *)
Theorem typing_means_pending (st : State) :
  reachable st -> isTyping st = true -> timers st <> [].
Proof.
  intros (loadTime & es & Hr).
  refine (run_invariant (fun s => isTyping s = true -> timers s <> [])
            _ es _ st _ Hr); [|discriminate].
  clear. intros st e st' H Hs.
  destruct (step_cases _ _ _ Hs)
    as [(_ & Ht & Hi)|[(now & _ & _ & Ht & _)|(now & t & rest & _ & _ & _ & _ & Hi & _)]].
  - rewrite Ht, Hi. exact H.
  - intros _. rewrite Ht. destruct (timers st); discriminate.
  - rewrite Hi. discriminate.
Qed.

Lemma typing_means_pending_witness :
  isTyping (submit "goal" 1000 (initialState 0)) = true /\
  timers (submit "goal" 1000 (initialState 0)) <> [].
Proof.
  split; [reflexivity|].
  apply typing_means_pending; [|reflexivity].
  exists 0, [Change "goal"; Send 1000]. reflexivity.
Defined.

(** The converse fails: when two texts are submitted before a response
    arrives, the first response switches the typing indicator off although
    the second is still pending. *)
Theorem typing_cleared_early (a b : string) (now1 now2 now3 : Z) (st st' : State) :
  trim a <> "" -> trim b <> "" ->
  step (submit b now2 (submit a now1 st)) (Timeout now3) = Some st' ->
  isTyping st' = false /\ timers st' <> [].
Proof.
  intros Ha Hb Hs. unfold submit in Hs.
  rewrite (handleSendMessage_accepts now1) in Hs by exact Ha.
  rewrite (handleSendMessage_accepts now2) in Hs by exact Hb.
  destruct (step_cases _ _ _ Hs)
    as [(_ & _ & Hi)|[(now & _ & _ & _ & _ & He)|(now & t & rest & Hq & _ & _ & Ht & Hi & _)]].
  - cbn in Hs. destruct (timers st) as [|t rest]; cbn in Hs.
    + destruct (now1 + 1500 <=? now3); [|discriminate].
      injection Hs as <-. cbn in Hi. discriminate.
    + destruct (due t <=? now3); [|discriminate].
      injection Hs as <-. cbn in Hi. discriminate.
  - discriminate.
  - split; [exact Hi|]. rewrite Ht. cbn in Hq.
    destruct (timers st) as [|t0 rest0]; cbn in Hq; injection Hq as _ <-;
      [discriminate|]. destruct rest0; discriminate.
Qed.

Lemma typing_cleared_early_witness :
  exists st',
    step (submit "portfolio" 1500 (submit "goal" 1000 (initialState 0))) (Timeout 2500)
    = Some st' /\ isTyping st' = false /\ timers st' <> [].
Proof.
  eexists. split; [reflexivity|].
  apply (typing_cleared_early "goal" "portfolio" 1000 1500 2500 (initialState 0));
    try (vm_compute; discriminate).
  reflexivity.
Defined.

Lemma reachable_wellFormed (st : State) :
  reachable st -> Forall wellFormed (messages st).
Proof.
  intros (loadTime & es & Hr).
  refine (run_invariant (fun s => Forall wellFormed (messages s)) _ es _ st _ Hr).
  - clear. intros st e st' H Hs.
    destruct (step_cases _ _ _ Hs)
      as [(Hm & _)|[(now & Hn & Hm & _)|(now & t & rest & _ & _ & Hm & _)]];
      rewrite Hm.
    + exact H.
    + apply Forall_app. split; [exact H|]. constructor; [|constructor].
      unfold wellFormed. cbn. now repeat split.
    + apply Forall_app. split; [exact H|]. constructor; [|constructor].
      unfold wellFormed. cbn. right. exists (userMessage t). now repeat split.
  - constructor; [|constructor]. unfold wellFormed. cbn. left. now repeat split.
Qed.

Lemma classify_cases (u : string) :
  exists c, classify u = Spec.cannedReply c.
Proof.
  rewrite classify_chain.
  destruct (Spec.matchesGroup u ["portfolio"; "performance"]);
    [now exists Spec.Performance|].
  destruct (Spec.matchesGroup u ["allocation"; "diversif"]);
    [now exists Spec.Allocation|].
  destruct (Spec.matchesGroup u ["retirement"; "goal"]);
    [now exists Spec.Retirement|now exists Spec.Fallback].
Qed.

(** No blank message ever enters the conversation: every user message
    in it has a text that trimming does not empty, and no chart is drawn
    under a user message. *)
Theorem user_messages_not_blank (st : State) (m : Message) :
  reachable st -> In m (messages st) -> isUser m = true ->
  trim (content m) <> "" /\ chartShown m = None.
Proof.
  intros Hr Hin Hu. apply reachable_wellFormed in Hr.
  rewrite Forall_forall in Hr. specialize (Hr m Hin).
  unfold wellFormed in Hr. rewrite Hu in Hr. destruct Hr as (Ht & Hh & _).
  split; [exact Ht|]. unfold chartShown. now rewrite Hh.
Qed.

Lemma user_messages_not_blank_witness :
  forallb (fun m => negb (isUser m) || negb (blank m))
    (messages (submit " goal " 1000 (submit "  " 500 (initialState 0)))) = true /\
  trim " goal " <> "".
Proof.
  split; [reflexivity|].
  refine (proj1 (user_messages_not_blank
                   (submit " goal " 1000 (submit "  " 500 (initialState 0)))
                   {| id := JS.toString 1000; content := " goal "; isUser := true;
                      timestamp := 1000; hasChart := None; chartData := None |}
                   _ _ eq_refl)).
  - exists 0, [Change "  "; Send 500; Change " goal "; Send 1000]. reflexivity.
  - right. left. reflexivity.
Defined.

(** The chart drawn under a message is the payload the message carries
    (the flag [hasChart] never hides a payload and never stands without
    one); it is drawn under replies only, and it is the twelve-month line
    payload or the five-slice pie payload. *)
Theorem charts_in_conversation (st : State) (m : Message) :
  reachable st -> In m (messages st) ->
  chartShown m = chartData m /\
  (forall d, chartShown m = Some d ->
             isUser m = false /\
             (d = line performanceData \/ d = pie allocationData)).
Proof.
  intros Hr Hin. apply reachable_wellFormed in Hr.
  rewrite Forall_forall in Hr. specialize (Hr m Hin).
  unfold wellFormed in Hr. unfold chartShown.
  destruct (isUser m).
  - destruct Hr as (_ & -> & ->). split; [reflexivity|discriminate].
  - destruct Hr as [(_ & -> & ->)|(u & _ & -> & ->)];
      [split; [reflexivity|discriminate]|].
    destruct (classify_cases u) as [c ->].
    destruct c; cbn; (split; [reflexivity|]); intros d [= <-] || intros d [=];
      split; auto.
Qed.

Lemma charts_in_conversation_witness :
  exists st m,
    run (initialState 0) [Change "allocation"; Send 1000; Timeout 2500] = Some st /\
    In m (messages st) /\ chartShown m = Some (pie allocationData) /\
    chartShown m = chartData m.
Proof.
  eexists. eexists.
  split; [reflexivity|]. split; [right; right; left; reflexivity|].
  split; [reflexivity|].
  refine (proj1 (charts_in_conversation _ _ _ _)).
  - exists 0, [Change "allocation"; Send 1000; Timeout 2500]. reflexivity.
  - right; right; left; reflexivity.
Defined.

(** *** Time stamps and identifiers *)

Lemma StronglySorted_snoc (R : Z -> Z -> Prop) (l : list Z) (x : Z) :
  StronglySorted R l -> Forall (fun y => R y x) l -> StronglySorted R (l ++ [x]).
Proof.
  induction 1 as [|a l Hs IH Ha]; intros Hx; cbn.
  - repeat constructor.
  - inversion Hx as [|? ? Hax Hlx]; subst. constructor; [now apply IH|].
    apply Forall_app. split; [exact Ha|now constructor].
Qed.

(** The stamps and identifiers of the messages are those of the greeting
    followed by the clock readings at which messages were appended. *)
Lemma run_stamps (es : list Event) :
  forall st st',
    run st es = Some st' ->
    exists added,
      incl added (readings es) /\
      map timestamp (messages st') = (map timestamp (messages st) ++ added)%list /\
      map id (messages st')
      = (map id (messages st) ++ map JS.toString added)%list /\
      forall R c, StronglySorted R (c :: readings es) ->
                  StronglySorted R (c :: added).
Proof.
  induction es as [|e es IH]; intros st st' Hr.
  - injection Hr as <-. exists []. cbn. rewrite !app_nil_r.
    repeat split; [apply incl_refl|auto].
  - cbn [run] in Hr. destruct (step st e) as [st1|] eqn:E; [|discriminate].
    destruct (IH _ _ Hr) as (added & Hi & Ht & Hd & Hs).
    assert (Tail : forall R c, StronglySorted R (c :: readings (e :: es)) ->
                               StronglySorted R (c :: readings es)).
    { intros R c H. destruct e; cbn in H; [exact H| |];
        inversion H as [|? ? H1 H2]; subst;
        inversion H1 as [|? ? H3 H4]; subst;
        inversion H2 as [|? ? H5 H6]; subst;
        (constructor; assumption). }
    destruct (step_cases _ _ _ E)
      as [(Hm & _)|[(now & _ & Hm & _ & _ & ->)|(now & t & rest & _ & _ & Hm & _ & _ & ->)]].
    + exists added. rewrite Ht, Hd, Hm. repeat split.
      * intros x Hx. apply Hi in Hx. destruct e; cbn; auto.
      * intros R c H. apply Hs. now apply Tail.
    + exists (now :: added). rewrite Ht, Hd, Hm, !map_app. cbn.
      rewrite <- !app_assoc. repeat split.
      * intros x [<-|Hx]; [now left|right; now apply Hi].
      * intros R c H. cbn in H.
        inversion H as [|? ? H1 H2]; subst. constructor.
        -- apply (Hs R now H1).
        -- inversion H2 as [|? ? H3 H4]; subst. constructor; [exact H3|].
           rewrite Forall_forall in *. intros x Hx. apply H4. now apply Hi.
    + exists (now :: added). rewrite Ht, Hd, Hm, !map_app. cbn.
      rewrite <- !app_assoc. repeat split.
      * intros x [<-|Hx]; [now left|right; now apply Hi].
      * intros R c H. cbn in H.
        inversion H as [|? ? H1 H2]; subst. constructor.
        -- apply (Hs R now H1).
        -- inversion H2 as [|? ? H3 H4]; subst. constructor; [exact H3|].
           rewrite Forall_forall in *. intros x Hx. apply H4. now apply Hi.
Qed.

(** When the clock does not go back (the readings of the run, from the
    one at load time on, never decrease), the messages are in the order of
    their time stamps. *)
Theorem timestamps_in_order (loadTime : Z) (es : list Event) (st : State) :
  StronglySorted Z.le (loadTime :: readings es) ->
  run (initialState loadTime) es = Some st ->
  StronglySorted Z.le (map timestamp (messages st)).
Proof.
  intros Hc Hr. destruct (run_stamps es _ _ Hr) as (added & _ & Ht & _ & Hs).
  rewrite Ht. cbn. specialize (Hs Z.le loadTime Hc).
  inversion Hs as [|? ? H1 H2]; subst. constructor; [exact H1|].
  rewrite Forall_forall in *. intros x Hx. specialize (H2 x Hx). lia.
Qed.

Lemma timestamps_in_order_witness :
  exists st,
    run (initialState 0) [Change "goal"; Send 1000; Change "portfolio"; Send 1500;
                          Timeout 2500; Timeout 3000] = Some st /\
    StronglySorted Z.le (map timestamp (messages st)).
Proof.
  eexists. split; [reflexivity|].
  apply (timestamps_in_order 0
           [Change "goal"; Send 1000; Change "portfolio"; Send 1500;
            Timeout 2500; Timeout 3000]); [|reflexivity].
  cbn. repeat (constructor; [|repeat (constructor; [lia|]); constructor]).
  constructor.
Defined.

Lemma toString_injective (a b : Z) : JS.toString a = JS.toString b -> a = b.
Proof.
  unfold JS.toString. intros H.
  assert (N : forall z, Z.to_int z <> Decimal.Pos Decimal.Nil /\
                        Z.to_int z <> Decimal.Neg Decimal.Nil).
  { intros [|p|p]; cbn; split; try discriminate; intros [= E];
      now apply (DecimalPos.Unsigned.to_uint_nonnil p). }
  apply (f_equal NilZero.int_of_string) in H.
  rewrite !NilZero.isi in H by apply N.
  injection H as H. now apply DecimalZ.to_int_inj.
Qed.

Lemma increasing_toString_NoDup (l : list Z) :
  StronglySorted Z.lt l -> NoDup (map JS.toString l).
Proof.
  induction 1 as [|a l Hs IH Ha]; cbn; constructor; [|exact IH].
  intros Hin. apply in_map_iff in Hin. destruct Hin as (b & Hb & Hin).
  apply toString_injective in Hb. subst b.
  rewrite Forall_forall in Ha. specialize (Ha a Hin). lia.
Qed.

(** When every clock reading of the run is later than the one before,
    and later than 1, no two messages of the conversation have the same
    [id], the key under which the list renders them. *)
Theorem ids_distinct (loadTime : Z) (es : list Event) (st : State) :
  StronglySorted Z.lt (1 :: readings es) ->
  run (initialState loadTime) es = Some st ->
  NoDup (map id (messages st)).
Proof.
  intros Hc Hr. destruct (run_stamps es _ _ Hr) as (added & _ & _ & Hd & Hs).
  rewrite Hd. apply (increasing_toString_NoDup (1 :: added)).
  now apply Hs.
Qed.

Lemma ids_distinct_witness :
  exists st,
    run (initialState 0) [Change "goal"; Send 1000; Change "portfolio"; Send 1500;
                          Timeout 2500; Timeout 3000] = Some st /\
    NoDup (map id (messages st)).
Proof.
  eexists. split; [reflexivity|].
  apply (ids_distinct 0
           [Change "goal"; Send 1000; Change "portfolio"; Send 1500;
            Timeout 2500; Timeout 3000]); [|reflexivity].
  cbn. repeat (constructor; [|repeat (constructor; [lia|]); constructor]).
  constructor.
Defined.

(** Two texts sent at the same clock reading give two messages with the
    same [id]. *)
Theorem ids_clash (a b : string) (now : Z) (st : State) :
  trim a <> "" -> trim b <> "" ->
  map id (messages (submit b now (submit a now st)))
  = (map id (messages st) ++ [JS.toString now; JS.toString now])%list /\
  ~ NoDup (map id (messages (submit b now (submit a now st)))).
Proof.
  intros Ha Hb.
  assert (E : map id (messages (submit b now (submit a now st)))
              = (map id (messages st) ++ [JS.toString now; JS.toString now])%list).
  { unfold submit. rewrite (handleSendMessage_accepts now (setInputValue b _)) by exact Hb.
    rewrite (handleSendMessage_accepts now (setInputValue a _)) by exact Ha.
    cbn. rewrite !map_app. cbn. now rewrite <- app_assoc. }
  split; [exact E|]. rewrite E. intros N.
  apply NoDup_remove_2 in N. apply N. apply in_or_app. right. now left.
Qed.

Lemma ids_clash_witness :
  map id (messages (submit "portfolio" 1000 (submit "goal" 1000 (initialState 0))))
  = ["1"; "1000"; "1000"].
Proof.
  apply (ids_clash "goal" "portfolio" 1000 (initialState 0)); vm_compute; discriminate.
Defined.

(** *** Pending responses arrive *)

Lemma timers_drain (pending : list Timer) :
  forall (now : Z) (st : State),
    timers st = pending ->
    Forall (fun t => due t <= now) pending ->
    exists st',
      run st (repeat (Timeout now) (List.length pending)) = Some st' /\
      timers st' = [] /\
      inputValue st' = inputValue st /\
      (pending <> [] -> isTyping st' = false) /\
      map Spec.entry (messages st')
      = (map Spec.entry (messages st)
         ++ map (fun t => Spec.replyEntry (userMessage t)) pending)%list.
Proof.
  induction pending as [|t rest IH]; intros now st Hq Hd.
  - exists st. cbn. rewrite app_nil_r. now repeat split.
  - inversion Hd as [|? ? Ht Hrest]; subst.
    cbn [List.length repeat run step]. rewrite Hq.
    apply Z.leb_le in Ht. rewrite Ht.
    destruct (IH now
                (timeoutCallback (userMessage t) now
                   {| messages := messages st; inputValue := inputValue st;
                      isTyping := isTyping st; timers := rest |})
                eq_refl Hrest)
      as (st' & Hr & Hq' & Hi & Hty & Hm).
    exists st'. split; [exact Hr|]. split; [exact Hq'|]. split; [exact Hi|].
    split.
    + intros _. destruct rest as [|t2 rest2]; [|apply Hty; discriminate].
      cbn in Hr. now injection Hr as <-.
    + rewrite Hm. cbn. rewrite map_app, <- app_assoc. reflexivity.
Qed.

(** No response stays pending for ever: in any state, once the clock has
    passed the time every pending timer is due, the timers can all fire,
    and when they have, nothing is pending, the typing indicator is off
    and the conversation has grown by the replies to the pending texts, in
    the order the texts were sent. *)
Theorem pending_responses_arrive (now : Z) (st : State) :
  Forall (fun t => due t <= now) (timers st) ->
  exists st',
    run st (repeat (Timeout now) (List.length (timers st))) = Some st' /\
    timers st' = [] /\
    (timers st <> [] -> isTyping st' = false) /\
    map Spec.entry (messages st')
    = (map Spec.entry (messages st)
       ++ map (fun t => Spec.replyEntry (userMessage t)) (timers st))%list.
Proof.
  intros H. destruct (timers_drain (timers st) now st eq_refl H)
    as (st' & Hr & Hq & _ & Hty & Hm).
  exists st'. now repeat split.
Qed.

Lemma pending_responses_arrive_witness :
  exists st',
    run (submit "portfolio" 1500 (submit "goal" 1000 (initialState 0)))
      [Timeout 3000; Timeout 3000] = Some st' /\
    timers st' = [] /\
    map Spec.entry (messages st')
    = [Spec.greetingEntry; Spec.userEntry "goal"; Spec.userEntry "portfolio";
       Spec.replyEntry "goal"; Spec.replyEntry "portfolio"].
Proof.
  destruct (pending_responses_arrive 3000
              (submit "portfolio" 1500 (submit "goal" 1000 (initialState 0))))
    as (st' & Hr & Hq & _ & Hm).
  - vm_compute. repeat (constructor; [discriminate|]). constructor.
  - exists st'. split; [exact Hr|]. split; [exact Hq|]. exact Hm.
Defined.

End Reachable.

(** ** More of the keyword chain *)

Section Chain.
Import JS FinancialChat Spec Runs.

Lemma includes_superstring (pre u post kw : string) :
  includes (toLowerCase u) kw = true ->
  includes (toLowerCase (pre ++ u ++ post)) kw = true.
Proof.
  rewrite !includes_split. intros (a & b & H).
  exists (toLowerCase pre ++ a), (b ++ toLowerCase post).
  rewrite !toLowerCase_append, H.
  clear. induction (toLowerCase pre) as [|c s IH]; cbn; [|now rewrite IH].
  induction a as [|c a IH]; cbn; [|now rewrite IH].
  induction kw as [|c k IH]; cbn; [|now rewrite IH].
  reflexivity.
Qed.

Lemma matchesGroup_superstring (pre u post k1 k2 : string) :
  toLowerCase k1 = k1 -> toLowerCase k2 = k2 ->
  matchesGroup u [k1; k2] = true ->
  matchesGroup (pre ++ u ++ post) [k1; k2] = true.
Proof.
  intros H1 H2. rewrite !matchesGroup_two by assumption.
  rewrite !orb_true_iff. intros [H|H]; [left|right];
    now apply includes_superstring.
Qed.

(** Text added before or after an utterance never moves its reply down
    the chain: the reply to the longer text comes from the same branch or
    from an earlier one.  So an utterance that gets the performance reply
    keeps it whatever is added, and text that gets the fallback reply has
    no part that gets another. *)
Theorem classify_superstring (pre u post : string) (c c' : Category) :
  classify u = cannedReply c ->
  classify (pre ++ u ++ post) = cannedReply c' ->
  (priority c' <= priority c)%nat.
Proof.
  rewrite !classify_chain. intros H H'.
  pose proof (matchesGroup_superstring pre u post "portfolio" "performance"
                eq_refl eq_refl) as M1.
  pose proof (matchesGroup_superstring pre u post "allocation" "diversif"
                eq_refl eq_refl) as M2.
  pose proof (matchesGroup_superstring pre u post "retirement" "goal"
                eq_refl eq_refl) as M3.
  destruct (matchesGroup u ["portfolio"; "performance"]);
    [rewrite (M1 eq_refl) in H'|];
    [|destruct (matchesGroup u ["allocation"; "diversif"]);
      [rewrite (M2 eq_refl) in H'|];
      [|destruct (matchesGroup u ["retirement"; "goal"]);
        [rewrite (M3 eq_refl) in H'|]]];
    apply cannedReply_injective in H; subst c;
    repeat match type of H' with
           | context [if ?b then _ else _] => destruct b
           end;
    apply cannedReply_injective in H'; subst c'; cbn; lia.
Qed.

Lemma classify_superstring_witness :
  classify "goal" = cannedReply Retirement /\
  classify ("my portfolio and my " ++ "goal" ++ "s") = cannedReply Performance /\
  (priority Performance <= priority Retirement)%nat.
Proof.
  split; [reflexivity|]. split; [reflexivity|].
  apply (classify_superstring "my portfolio and my " "goal" "s" Retirement Performance);
    reflexivity.
Defined.

Lemma isWhiteSpace_lowerChar (c : ascii) :
  isWhiteSpace (lowerChar c) = isWhiteSpace c.
Proof. destruct c as [[] [] [] [] [] [] [] []]; reflexivity. Qed.

Lemma toLowerCase_trimStart (s : string) :
  toLowerCase (trimStart s) = trimStart (toLowerCase s).
Proof.
  induction s as [|c s IH]; cbn; [reflexivity|].
  rewrite isWhiteSpace_lowerChar. now destruct (isWhiteSpace c).
Qed.

Lemma toLowerCase_trimEnd (s : string) :
  toLowerCase (trimEnd s) = trimEnd (toLowerCase s).
Proof.
  induction s as [|c s IH]; cbn; [reflexivity|].
  rewrite <- IH, isWhiteSpace_lowerChar.
  destruct (trimEnd s); cbn; [now destruct (isWhiteSpace c)|reflexivity].
Qed.

Lemma toLowerCase_trim (s : string) :
  toLowerCase (trim s) = trim (toLowerCase s).
Proof. unfold trim. now rewrite toLowerCase_trimEnd, toLowerCase_trimStart. Qed.

(** A candidate without white space is a prefix of a string exactly when
    it is one of the string with its trailing white space removed. *)
Lemma prefix_trimEnd (s : string) :
  forall p, allChars (fun c => negb (isWhiteSpace c)) p = true ->
            String.prefix p (trimEnd s) = String.prefix p s.
Proof.
  induction s as [|c s IH]; intros [|a p] Hp; try reflexivity.
  - cbn [trimEnd]. destruct (trimEnd s); reflexivity || (destruct (isWhiteSpace c); reflexivity).
  - cbn in Hp. apply andb_true_iff in Hp. destruct Hp as [Ha Hp].
    specialize (IH p Hp). cbn [trimEnd].
    destruct (trimEnd s) as [|d r] eqn:E.
    + destruct (isWhiteSpace c) eqn:W; cbn.
      * destruct (ascii_dec a c) as [->|_]; [|reflexivity].
        rewrite W in Ha. discriminate.
      * destruct (ascii_dec a c); [exact IH|reflexivity].
    + cbn. destruct (ascii_dec a c); [exact IH|reflexivity].
Qed.

Lemma includes_trimEnd (s kw : string) :
  solid kw = true -> includes (trimEnd s) kw = includes s kw.
Proof.
  unfold solid. intros H. apply andb_true_iff in H. destruct H as [Hn Hs].
  destruct kw as [|k kw]; [discriminate|]. clear Hn.
  induction s as [|c s IH]; [reflexivity|].
  rewrite includes_String, <- IH, <- (prefix_trimEnd (String c s)) by exact Hs.
  cbn [trimEnd]. destruct (trimEnd s) as [|d r] eqn:E.
  - destruct (isWhiteSpace c); cbn; now rewrite ?orb_false_r.
  - now rewrite includes_String.
Qed.

Lemma includes_trimStart (s kw : string) :
  solid kw = true -> includes (trimStart s) kw = includes s kw.
Proof.
  unfold solid. intros H. apply andb_true_iff in H. destruct H as [Hn Hs].
  destruct kw as [|k kw]; [discriminate|]. clear Hn.
  cbn in Hs. apply andb_true_iff in Hs. destruct Hs as [Hk _].
  induction s as [|c s IH]; [reflexivity|].
  cbn [trimStart]. destruct (isWhiteSpace c) eqn:W; [|reflexivity].
  rewrite IH, includes_String. cbn [String.prefix].
  destruct (ascii_dec k c) as [->|_]; [|reflexivity].
  rewrite W in Hk. discriminate.
Qed.

Lemma includes_trim (s kw : string) :
  solid kw = true -> includes (trim s) kw = includes s kw.
Proof.
  intros H. unfold trim. now rewrite includes_trimEnd, includes_trimStart.
Qed.

(** The text reaches the keyword chain as typed, with the white space
    around it; the reply is the one the trimmed text would get. *)
Theorem classify_trim (u : string) :
  classify (trim u) = classify u.
Proof.
  unfold classify. rewrite toLowerCase_trim.
  now rewrite !includes_trim by reflexivity.
Qed.

End Chain.

(** ** [FinancialChart]: cell colours and the recommendations section *)

Section Chart.
Import FinancialChart Spec.

Lemma PIE_COLORS_NoDup : NoDup PIE_COLORS.
Proof.
  unfold PIE_COLORS.
  repeat (constructor; [cbn; intros H; repeat (destruct H as [H|H]; [discriminate H|]);
                        exact H|]).
  constructor.
Qed.

(** Every cell gets a fill, whatever its index (the palette is never
    read out of its range), and two cells get the same fill exactly when
    their indexes differ by a multiple of five: a pie of up to five slices
    has five different colours, a sixth slice repeats the first. *)
Theorem cellFill_cycle (i j : nat) :
  (exists colour, cellFill i = Some colour /\ In colour PIE_COLORS) /\
  (cellFill i = cellFill j <-> (i mod 5 = j mod 5)%nat).
Proof.
  unfold cellFill. change (List.length PIE_COLORS) with 5%nat.
  assert (Hi : (i mod 5 < List.length PIE_COLORS)%nat)
    by (apply Nat.mod_upper_bound; discriminate).
  split.
  - destruct (nth_error PIE_COLORS (i mod 5)) as [colour|] eqn:E.
    + exists colour. split; [reflexivity|]. eapply nth_error_In; eauto.
    + apply nth_error_None in E. lia.
  - split; [|now intros ->].
    intros H. apply (proj1 (NoDup_nth_error PIE_COLORS) PIE_COLORS_NoDup); assumption.
Qed.





(** A recommendation of 0 counts as no recommendation: the section is
    left out exactly when every slice recommends 0 or nothing, and a line
    it shows never reads 0. *)
Theorem recommendations_shown (items : list Pie.slice) :
  (recommendations (pie items) = None <->
   Forall (fun item => Pie.recommended item = None \/
                       Pie.recommended item = Some 0) items) /\
  (forall rows, recommendations (pie items) = Some rows ->
     List.length rows = List.length items /\
     Forall (fun row => match row with
                        | Some a => change a <> 0
                        | None => True
                        end) rows).
Proof.
  unfold recommendations. split.
  - destruct (existsb (fun item => truthy (Pie.recommended item)) items) eqn:E.
    + split; [discriminate|]. intros H. exfalso.
      apply existsb_exists in E. destruct E as (item & Hin & Ht).
      rewrite Forall_forall in H. destruct (H item Hin) as [R|R];
        rewrite R in Ht; discriminate.
    + split; [|reflexivity]. intros _. apply Forall_forall. intros item Hin.
      destruct (Pie.recommended item) as [r|] eqn:R; [|now left]. right.
      destruct (Z.eqb_spec r 0) as [->|N]; [reflexivity|]. exfalso.
      assert (T : existsb (fun item => truthy (Pie.recommended item)) items = true).
      { apply existsb_exists. exists item. split; [exact Hin|].
        rewrite R. cbn. now apply negb_true_iff, Z.eqb_neq. }
      congruence.
  - intros rows H.
    destruct (existsb (fun item => truthy (Pie.recommended item)) items);
      [|discriminate].
    injection H as <-. split; [apply length_map|].
    apply Forall_forall. intros row Hin. apply in_map_iff in Hin.
    destruct Hin as (item & <- & _). unfold adjustment.
    destruct (Pie.recommended item) as [r|]; [|exact I].
    destruct (truthy (Some r) && negb (Pie.value item =? r)) eqn:E; [|exact I].
    cbn. apply andb_true_iff in E. destruct E as [_ E].
    apply negb_true_iff, Z.eqb_neq in E. lia.
Qed.

End Chart.

(** ** The page: the sidebar and the chat *)

Section Page.
Import FinancialAdvisor.

(** Nothing that happens in the sidebar reaches the chat: after any run
    of page events the chat is in the state its own events alone leave it
    in, so a sidebar quick action neither fills the chat's input box nor
    adds a message. *)
Theorem sidebar_leaves_chat (es : list Event) :
  forall st st',
    run st es = Some st' ->
    FinancialChat.run (chat st) (chatEvents es) = Some (chat st').
Proof.
  induction es as [|e es IH]; intros st st' Hr.
  - injection Hr as <-. reflexivity.
  - cbn [run] in Hr. destruct (step st e) as [st1|] eqn:E; [|discriminate].
    apply IH in Hr. destruct e as [| |index|c]; cbn in E.
    + injection E as <-. exact Hr.
    + destruct (sidebarOpen st); [|discriminate]. injection E as <-. exact Hr.
    + destruct (nth_error ProfileSidebar.quickActions index); [|discriminate].
      injection E as <-. exact Hr.
    + destruct (FinancialChat.step (chat st) c) as [c1|] eqn:C; [|discriminate].
      injection E as <-. cbn. rewrite C. exact Hr.
Qed.

Lemma sidebar_leaves_chat_witness :
  exists st',
    run (initialState 0)
      [QuickAction 0; Chat (FinancialChat.Change "goal"); Toggle;
       Chat (FinancialChat.Send 1000); QuickAction 3] = Some st' /\
    FinancialChat.run (FinancialChat.initialState 0)
      [FinancialChat.Change "goal"; FinancialChat.Send 1000] = Some (chat st') /\
    inputValue st' = "What is compound interest?".
Proof.
  eexists. split; [reflexivity|]. split; [|reflexivity].
  exact (sidebar_leaves_chat
           [QuickAction 0; Chat (FinancialChat.Change "goal"); Toggle;
            Chat (FinancialChat.Send 1000); QuickAction 3]
           (initialState 0) _ eq_refl).
Defined.

End Page.
